(** * stevedore.enabled: EnabledExtensionManager

    A shallow embedding of [stevedore/enabled.py] and the properties of
    its loading and filtering pipeline.

    The module defines one class, [EnabledExtensionManager], a subclass
    of [ExtensionManager] (stevedore/extension.py) that keeps only the
    extensions accepted by a caller-supplied predicate [check_func].
    Python effects are made explicit: a computation denotes the events
    it emits (log records and calls of caller-supplied callables, in
    chronological order) together with its outcome, which is a value or
    a raised exception. *)

From Stdlib Require Import String List Bool.
Import ListNotations.
Open Scope string_scope.
Open Scope list_scope.

Set Implicit Arguments.

(** ** Python values *)

(** An opaque Python object (a class, a function, a module, the result
    of a call), identified by its repr. *)
Definition pyobj := string.

(** Positional arguments ([invoke_args], a tuple) and named arguments
    ([invoke_kwds], a dict literal in insertion order). *)
Definition pyargs := list pyobj.
Definition pykwds := list (string * pyobj).

(** The result of calling Python code that may raise: [inl msg] stands
    for an exception carrying [msg], [inr v] for a normal return. *)
Definition raising (A : Type) := (string + A)%type.

(** A loaded plugin: a callable object. *)
Module Plugin.
Record t := mk {
  repr : pyobj;
  call : pyargs -> pykwds -> raising pyobj
}.
End Plugin.

(** An entry descriptor handed out by the discovery collaborator.  The
    source reads [ep.name]; loading goes through [resolve]. *)
Module EntryPoint.
Record t := mk {
  name : string;
  resolve : raising Plugin.t
}.
End EntryPoint.

(** [Extension(name, entry_point, plugin, obj)]. *)
Module Extension.
Record t := mk {
  name : string;
  entry_point : EntryPoint.t;
  plugin : Plugin.t;
  obj : option pyobj
}.
End Extension.

(** [check_func]: a callable from an Extension to a boolean ("should
    return a boolean", says the class docstring), which may raise. *)
Definition CheckFunc := Extension.t -> raising bool.

(** ** Exceptions, events and the effect monad *)

(** Exceptions, by the failure they report. *)
Inductive exn : Type :=
| LoadError (msg : string)       (* resolving, instantiating or invoking an entry *)
| CheckError (msg : string)      (* raised by check_func *)
| FuncError (msg : string)       (* raised by the function given to map *)
| DiscoveryError (msg : string)  (* raised by the discovery collaborator *)
| AttributeError (attr : string) (* reading an attribute that is not set *).

Inductive level : Type := DEBUG | ERROR.

(** What an execution lets the outside observe. *)
Inductive event : Type :=
| Log (lvl : level) (fmt : string) (arg : string)
| CallCheck (e : Extension.t)    (* check_func applied to e *)
| CallFunc (e : Extension.t)     (* the mapped function applied to e *).

Inductive outcome (A : Type) : Type :=
| Ok (a : A)
| Raise (e : exn).
Arguments Ok {A} a.
Arguments Raise {A} e.

(** Events emitted so far, and how the computation ended. *)
Definition M (A : Type) : Type := (list event * outcome A)%type.

Definition ret {A} (a : A) : M A := ([], Ok a).

Definition raise {A} (e : exn) : M A := ([], Raise e).

Definition emit (ev : event) : M unit := ([ev], Ok tt).

Definition bind {A B} (m : M A) (k : A -> M B) : M B :=
  match m with
  | (t, Ok a) => let (t', r) := k a in (t ++ t', r)
  | (t, Raise e) => (t, Raise e)
  end.

(** [try: m except handles: h]: an exception [e] of [m] with
    [handles e = true] is handed to [h]; any other goes on. *)
Definition catch {A} (m : M A) (handles : exn -> bool) (h : exn -> M A) : M A :=
  match m with
  | (t, Ok a) => (t, Ok a)
  | (t, Raise e) =>
      if handles e then let (t', r) := h e in (t ++ t', r) else (t, Raise e)
  end.

Notation "x <- m ;; k" := (bind m (fun x => k))
  (at level 61, m at next level, right associativity).
Notation "m ;;; k" := (bind m (fun _ => k))
  (at level 61, right associativity).

Definition trace {A} (m : M A) : list event := fst m.
Definition result {A} (m : M A) : outcome A := snd m.

(** A Python call that may raise, as a computation. *)
Definition lift {A} (mk_exn : string -> exn) (r : raising A) : M A :=
  match r with
  | inl msg => raise (mk_exn msg)
  | inr a => ret a
  end.

(** [check_func(ext)]: the call is observable, and it may raise. *)
Definition call_check (check_func : CheckFunc) (ext : Extension.t) : M bool :=
  emit (CallCheck ext) ;;; lift CheckError (check_func ext).

(** [LOG.debug(fmt, arg)] and [LOG.error(fmt, arg)]. *)
Definition LOG_debug (fmt arg : string) : M unit := emit (Log DEBUG fmt arg).

Definition LOG_error (fmt arg : string) : M unit := emit (Log ERROR fmt arg).

(** ** Manager objects *)

(** A manager instance: its attribute dictionary.  An attribute that was
    never assigned is [None]; reading it raises AttributeError. *)
Module Manager.
Record t := mk {
  check_func : option CheckFunc;
  namespace : option string;
  propagate_map_exceptions : option bool;
  extensions : option (list Extension.t)
}.

(** [cls.__new__(cls)]: an object with no attribute set. *)
Definition new : t := mk None None None None.

(** Attribute assignment, [o.attr = v]. *)
Definition set_check_func (o : t) (f : CheckFunc) : t :=
  mk (Some f) (namespace o) (propagate_map_exceptions o) (extensions o).

Definition set_namespace (o : t) (ns : string) : t :=
  mk (check_func o) (Some ns) (propagate_map_exceptions o) (extensions o).

Definition set_propagate_map_exceptions (o : t) (b : bool) : t :=
  mk (check_func o) (namespace o) (Some b) (extensions o).

Definition set_extensions (o : t) (l : list Extension.t) : t :=
  mk (check_func o) (namespace o) (propagate_map_exceptions o) (Some l).
End Manager.

(** Reading an attribute. *)
Definition getattr {A} (attr : string) (v : option A) : M A :=
  match v with
  | Some a => ret a
  | None => raise (AttributeError attr)
  end.

(** The type of the method [_load_one_plugin(self, ep, invoke_on_load,
    invoke_args, invoke_kwds)]: it yields an Extension or None. *)
Definition LoadOne : Type :=
  Manager.t -> EntryPoint.t -> bool -> pyargs -> pykwds -> M (option Extension.t).

(** Truth value of what [_load_one_plugin] returns: None is false, an
    Extension (a plain object with neither [__bool__] nor [__len__]) is
    true. *)
Definition truthy (ext : option Extension.t) : bool :=
  match ext with
  | Some _ => true
  | None => false
  end.

(** ** The base class, as seen from the subclass

    What [enabled.py] uses of its base class through [super()]: the
    constructor (which calls back the instance's own, dynamically
    dispatched, [_load_one_plugin]), the test-instance constructor and
    the per-entry loader. *)
Class Base : Type := {
  super_init :
    LoadOne -> Manager.t -> string -> bool -> pyargs -> pykwds -> bool -> M Manager.t;
  super_make_test_instance : list Extension.t -> bool -> M Manager.t;
  super_load_one_plugin : LoadOne
}.

(** ** enabled.py *)

Module EnabledExtensionManager.
Section WithBase.
Context {B : Base}.

(** [_load_one_plugin], lines 84-91. *)
Definition _load_one_plugin : LoadOne :=
  fun self ep invoke_on_load invoke_args invoke_kwds =>
    ext <- super_load_one_plugin self ep invoke_on_load invoke_args invoke_kwds ;;
    (* [ext and not self.check_func(ext)], left to right: the attribute
       is read and the predicate called only when [ext] is true *)
    rejected <- match ext with
                | None => ret false
                | Some e =>
                    check_func <- getattr "check_func" (Manager.check_func self) ;;
                    ok <- call_check check_func e ;;
                    ret (negb ok)
                end ;;
    if rejected then
      LOG_debug "ignoring extension %r" (EntryPoint.name ep) ;;;
      ret None
    else ret ext.

(** [__init__], lines 38-48.  [self] is the object under construction,
    as [__new__] made it. *)
Definition __init__ (self : Manager.t) (namespace : string)
    (check_func : CheckFunc) (invoke_on_load : bool) (invoke_args : pyargs)
    (invoke_kwds : pykwds) (propagate_map_exceptions : bool) : M Manager.t :=
  let self := Manager.set_check_func self check_func in
  super_init _load_one_plugin self namespace
    invoke_on_load invoke_args invoke_kwds propagate_map_exceptions.

(** The list comprehension of lines 75-76,
    [[extension for extension in available_extensions
      if check_func(extension)]]. *)
Fixpoint comprehension (check_func : CheckFunc)
    (available_extensions : list Extension.t) : M (list Extension.t) :=
  match available_extensions with
  | [] => ret []
  | extension :: rest =>
      ok <- call_check check_func extension ;;
      extensions <- comprehension check_func rest ;;
      ret (if ok then extension :: extensions else extensions)
  end.

(** [make_test_instance], lines 50-82. *)
Definition make_test_instance (available_extensions : list Extension.t)
    (check_func : CheckFunc) (propagate_map_exceptions : bool) : M Manager.t :=
  extensions <- comprehension check_func available_extensions ;;
  o <- super_make_test_instance extensions propagate_map_exceptions ;;
  ret (Manager.set_check_func o check_func).

End WithBase.
End EnabledExtensionManager.

(** ** The base class and its collaborator *)

(** The discovery collaborator: [list_entries(namespace)] yields the
    entry descriptors registered under a namespace, in order, or
    fails. *)
Class Discovery : Type := {
  list_entries : string -> raising (list EntryPoint.t)
}.

Module ExtensionManager.
Section WithDiscovery.
Context {D : Discovery}.

(** Modelled from the spec: the base class ExtensionManager lives in
    stevedore/extension.py, which is not part of the sources at hand.
    What follows is its contract as sections 4.2 and 7 of the
    specification give it. *)
Definition _init_attributes (self : Manager.t) (namespace : string)
    (propagate_map_exceptions : bool) : Manager.t :=
  Manager.set_propagate_map_exceptions
    (Manager.set_namespace self namespace) propagate_map_exceptions.

(** Modelled from the spec: the base per-entry loader of
    ExtensionManager (4.2, step 2): resolve the underlying object; if
    [invoke_on_load], invoke it with [invoke_args] and [invoke_kwds] to
    produce [obj]; wrap the result as an Extension named after the
    entry.  A failure of either step is a load failure. *)
Definition _load_one_plugin : LoadOne :=
  fun self ep invoke_on_load invoke_args invoke_kwds =>
    plugin <- lift LoadError (EntryPoint.resolve ep) ;;
    obj <- (if invoke_on_load : bool then
              o <- lift LoadError (Plugin.call plugin invoke_args invoke_kwds) ;;
              ret (Some o)
            else ret None) ;;
    ret (Some (Extension.mk (EntryPoint.name ep) ep plugin obj)).

(** Modelled from the spec: what the loading loop of ExtensionManager
    recovers from (4.2, step 4): "any unexpected failure during loading
    of a single entry", that is whatever is raised while the entry is in
    [_load_one_plugin], by whichever code raised it. *)
Definition is_load_failure (e : exn) : bool := true.

(** Modelled from the spec: the loading loop of ExtensionManager (4.2,
    steps 2 to 5).  Each entry is given to the instance's own
    [_load_one_plugin] ([load_one], the dynamically dispatched method).
    A failure while one entry is loaded is logged at error level and the
    entry skipped, and loading goes on with the other entries; an entry
    that yields no extension is omitted.  Extensions are kept in
    discovery order. *)
Fixpoint _load_plugins (load_one : LoadOne) (self : Manager.t)
    (eps : list EntryPoint.t) (invoke_on_load : bool) (invoke_args : pyargs)
    (invoke_kwds : pykwds) : M (list Extension.t) :=
  match eps with
  | [] => ret []
  | ep :: rest =>
      ext <- catch (load_one self ep invoke_on_load invoke_args invoke_kwds)
               is_load_failure
               (fun _ => LOG_error "could not load %r" (EntryPoint.name ep) ;;;
                         ret None) ;;
      extensions <- _load_plugins load_one self rest
                      invoke_on_load invoke_args invoke_kwds ;;
      ret (match ext with
           | Some e => e :: extensions
           | None => extensions
           end)
  end.

(** Modelled from the spec: the constructor of ExtensionManager in real
    mode (4.2, construction contract): query the discovery collaborator,
    load every entry, store the extensions in discovery order. *)
Definition __init__ (load_one : LoadOne) (self : Manager.t) (namespace : string)
    (invoke_on_load : bool) (invoke_args : pyargs) (invoke_kwds : pykwds)
    (propagate_map_exceptions : bool) : M Manager.t :=
  let self := _init_attributes self namespace propagate_map_exceptions in
  eps <- lift DiscoveryError (list_entries namespace) ;;
  extensions <- _load_plugins load_one self eps
                  invoke_on_load invoke_args invoke_kwds ;;
  ret (Manager.set_extensions self extensions).

(** Modelled from the spec: the test-instance constructor of
    ExtensionManager (4.2): no discovery and no loading, the given list
    is stored as it is, with the exception policy. *)
Definition make_test_instance (extensions : list Extension.t)
    (propagate_map_exceptions : bool) : M Manager.t :=
  let o := Manager.set_propagate_map_exceptions Manager.new
             propagate_map_exceptions in
  ret (Manager.set_extensions o extensions).

(** Modelled from the spec: one step of Map (4.2): apply [func] to an
    extension; if it raises, either let the exception go (fail-fast) or
    log it and leave the result out (best effort). *)
Definition _invoke_one_plugin (propagate_map_exceptions : bool)
    (func : Extension.t -> raising pyobj) (e : Extension.t) : M (option pyobj) :=
  emit (CallFunc e) ;;;
  match func e with
  | inr r => ret (Some r)
  | inl msg =>
      if propagate_map_exceptions then raise (FuncError msg)
      else LOG_error "error calling %r" (Extension.name e) ;;; ret None
  end.

(** Modelled from the spec: the loop of Map over the stored
    extensions, in order. *)
Fixpoint map_loop (propagate_map_exceptions : bool)
    (func : Extension.t -> raising pyobj) (extensions : list Extension.t)
    : M (list pyobj) :=
  match extensions with
  | [] => ret []
  | e :: rest =>
      r <- _invoke_one_plugin propagate_map_exceptions func e ;;
      response <- map_loop propagate_map_exceptions func rest ;;
      ret (match r with
           | Some v => v :: response
           | None => response
           end)
  end.

(** Modelled from the spec: Map(func) of ExtensionManager (4.2): the
    results of [func] over the stored extensions, in order, under the
    manager's exception policy; an empty manager gives an empty
    result. *)
Definition map (self : Manager.t) (func : Extension.t -> raising pyobj)
    : M (list pyobj) :=
  extensions <- getattr "extensions" (Manager.extensions self) ;;
  propagate <- getattr "propagate_map_exceptions"
                 (Manager.propagate_map_exceptions self) ;;
  map_loop propagate func extensions.

End WithDiscovery.
End ExtensionManager.

(** The specified base class, as the base of [EnabledExtensionManager]. *)
#[export] Instance ExtensionManager_Base {D : Discovery} : Base := {|
  super_init := ExtensionManager.__init__;
  super_make_test_instance := ExtensionManager.make_test_instance;
  super_load_one_plugin := ExtensionManager._load_one_plugin
|}.

(** ** Vocabulary of the statements *)

(** [check_func] accepts [e]: it returns, and returns true. *)
Definition accepted (check_func : CheckFunc) (e : Extension.t) : bool :=
  match check_func e with
  | inr true => true
  | _ => false
  end.

(** [check_func] rejects [e]: it returns, and returns false. *)
Definition rejected (check_func : CheckFunc) (e : Extension.t) : bool :=
  match check_func e with
  | inr false => true
  | _ => false
  end.

Definition returns {A} (r : raising A) : bool :=
  match r with
  | inr _ => true
  | inl _ => false
  end.

(** [check_func] raises on no element of [l]. *)
Definition never_raises (check_func : CheckFunc) (l : list Extension.t) : bool :=
  forallb (fun e => returns (check_func e)) l.

(** The outcome of filtering [l] with a predicate that may raise: the
    accepted elements in order, or the exception of the first element
    on which the predicate raises. *)
Fixpoint filter_raising (check_func : CheckFunc) (l : list Extension.t)
    : outcome (list Extension.t) :=
  match l with
  | [] => Ok []
  | e :: rest =>
      match check_func e with
      | inl msg => Raise (CheckError msg)
      | inr ok =>
          match filter_raising check_func rest with
          | Ok l' => Ok (if ok then e :: l' else l')
          | Raise x => Raise x
          end
      end
  end.

(** The candidates of a discovery result: the Extensions that the base
    per-entry loader produces, in discovery order.  Entries that fail
    to load contribute nothing. *)
Definition loaded (invoke_on_load : bool) (invoke_args : pyargs)
    (invoke_kwds : pykwds) (eps : list EntryPoint.t) : list Extension.t :=
  flat_map
    (fun ep =>
       match result (ExtensionManager._load_one_plugin Manager.new ep
                       invoke_on_load invoke_args invoke_kwds) with
       | Ok (Some e) => [e]
       | _ => []
       end) eps.

(** The entries of a discovery result that fail to load. *)
Definition load_failed (invoke_on_load : bool) (invoke_args : pyargs)
    (invoke_kwds : pykwds) (ep : EntryPoint.t) : bool :=
  match result (ExtensionManager._load_one_plugin Manager.new ep
                  invoke_on_load invoke_args invoke_kwds) with
  | Raise _ => true
  | Ok _ => false
  end.

(** The managed sequence of the manager a constructor returned. *)
Definition managed (r : outcome Manager.t) : outcome (option (list Extension.t)) :=
  match r with
  | Ok m => Ok (Manager.extensions m)
  | Raise e => Raise e
  end.

Definition level_eqb (a b : level) : bool :=
  match a, b with
  | DEBUG, DEBUG => true
  | ERROR, ERROR => true
  | _, _ => false
  end.

(** The log records of a given level in a trace, in order. *)
Definition records (lvl : level) (t : list event) : list event :=
  filter (fun ev => match ev with
                    | Log l _ _ => level_eqb l lvl
                    | _ => false
                    end) t.

(** [l1] is [l2] with some elements left out, order unchanged. *)
Inductive Subsequence {A : Type} : list A -> list A -> Prop :=
| Subsequence_nil : Subsequence [] []
| Subsequence_skip x l1 l2 : Subsequence l1 l2 -> Subsequence l1 (x :: l2)
| Subsequence_keep x l1 l2 : Subsequence l1 l2 -> Subsequence (x :: l1) (x :: l2).

(** What the loading loop of the base class does with one entry when the
    instance is an [EnabledExtensionManager] whose predicate is
    [check_func]: the events of the entry and what it contributes. *)
Definition entry_step (check_func : CheckFunc)
    (invoke_on_load : bool) (invoke_args : pyargs) (invoke_kwds : pykwds)
    (ep : EntryPoint.t) : M (option Extension.t) :=
  match result (ExtensionManager._load_one_plugin Manager.new ep
                  invoke_on_load invoke_args invoke_kwds) with
  | Ok (Some e) =>
      match check_func e with
      | inr true => ([CallCheck e], Ok (Some e))
      | inr false =>
          ([CallCheck e;
            Log DEBUG "ignoring extension %r" (EntryPoint.name ep)], Ok None)
      | inl msg =>
          ([CallCheck e;
            Log ERROR "could not load %r" (EntryPoint.name ep)], Ok None)
      end
  | Ok None => ([], Ok None)
  | Raise x => ([Log ERROR "could not load %r" (EntryPoint.name ep)], Ok None)
  end.

(** The debug records of [t] are one record per candidate that
    [check_func] rejects, in order, each naming its extension. *)
Definition one_debug_record_per_rejection (check_func : CheckFunc)
    (candidates : list Extension.t) (t : list event) : Prop :=
  records DEBUG t =
  map (fun e => Log DEBUG "ignoring extension %r" (Extension.name e))
      (filter (rejected check_func) candidates).

(** [m] is an [EnabledExtensionManager] built with predicate
    [check_func] and policy flag [propagate_map_exceptions], by either
    constructor. *)
Inductive built {D : Discovery} (check_func : CheckFunc)
    (propagate_map_exceptions : bool) (m : Manager.t) : Prop :=
| built_real namespace invoke_on_load invoke_args invoke_kwds :
    result (EnabledExtensionManager.__init__ Manager.new namespace check_func
              invoke_on_load invoke_args invoke_kwds propagate_map_exceptions)
    = Ok m ->
    built check_func propagate_map_exceptions m
| built_test available_extensions :
    result (EnabledExtensionManager.make_test_instance available_extensions
              check_func propagate_map_exceptions)
    = Ok m ->
    built check_func propagate_map_exceptions m.

(** Two predicates chained as in [lambda e: p(e) and q(e)]: [q] is
    asked only about what [p] accepts, and an exception of either goes
    on. *)
Definition both (p q : CheckFunc) : CheckFunc :=
  fun e =>
    match p e with
    | inr true => q e
    | r => r
    end.

(** ** A sample namespace

    Three loadable entries and one whose loading fails; the predicate
    accepts the names that do not start with "b". *)
Module Sample.

Definition plugin_of (name : string) : Plugin.t :=
  Plugin.mk ("<class " ++ name ++ ">")%string
            (fun _ _ => inr ("<" ++ name ++ " object>")%string).

Definition ep_alpha : EntryPoint.t := EntryPoint.mk "alpha" (inr (plugin_of "alpha")).
Definition ep_beta : EntryPoint.t := EntryPoint.mk "beta" (inr (plugin_of "beta")).
Definition ep_gamma : EntryPoint.t := EntryPoint.mk "gamma" (inr (plugin_of "gamma")).
Definition ep_delta : EntryPoint.t := EntryPoint.mk "delta" (inl "ImportError").

Definition ext_of (ep : EntryPoint.t) : Extension.t :=
  Extension.mk (EntryPoint.name ep) ep (plugin_of (EntryPoint.name ep)) None.

Definition alpha : Extension.t := ext_of ep_alpha.
Definition beta : Extension.t := ext_of ep_beta.
Definition gamma : Extension.t := ext_of ep_gamma.

Definition registry : Discovery :=
  {| list_entries := fun ns =>
       if String.eqb ns "sample" then inr [ep_alpha; ep_delta; ep_beta; ep_gamma]
       else inl "no such namespace" |}.

Definition not_b : CheckFunc :=
  fun e => inr (negb (String.prefix "b" (Extension.name e))).


(** A predicate that raises on "gamma". *)
Definition fragile : CheckFunc :=
  fun e => if String.eqb (Extension.name e) "gamma" then inl "boom"
           else not_b e.


(** A base class whose per-entry loader skips the entry "beta". *)
Definition skipping : Base :=
  {| super_init := ExtensionManager.__init__ (D := registry);
     super_make_test_instance := ExtensionManager.make_test_instance;
     super_load_one_plugin := fun self ep invoke_on_load invoke_args invoke_kwds =>
       if String.eqb (EntryPoint.name ep) "beta" then ret None
       else ExtensionManager._load_one_plugin self ep
              invoke_on_load invoke_args invoke_kwds |}.

(** The override hard-wired to [check_func], whatever the instance
    holds. *)
Definition load_one_with (check_func : CheckFunc) : LoadOne :=
  fun self =>
    EnabledExtensionManager._load_one_plugin (B := ExtensionManager_Base (D := registry))
      (Manager.set_check_func self check_func).

End Sample.

(** ** Laws of the effect monad *)

Lemma bind_ret_l {A B} (a : A) (k : A -> M B) : bind (ret a) k = k a.
Proof. unfold bind, ret. now destruct (k a). Qed.

Lemma bind_ret_r {A} (m : M A) : bind m ret = m.
Proof.
  destruct m as [t [a|e]]; simpl; [|reflexivity].
  now rewrite app_nil_r.
Qed.

Lemma bind_assoc {A B C} (m : M A) (f : A -> M B) (g : B -> M C) :
  bind (bind m f) g = bind m (fun a => bind (f a) g).
Proof.
  destruct m as [t [a|e]]; simpl; [|reflexivity].
  destruct (f a) as [t1 [b|e]]; simpl; [|reflexivity].
  destruct (g b) as [t2 r]. now rewrite app_assoc.
Qed.

Lemma surjective_M {A} (m : M A) : m = (trace m, result m).
Proof. now destruct m. Qed.

(** ** Filtering with a predicate that may raise *)

Lemma accepted_true check_func e :
  accepted check_func e = true <-> check_func e = inr true.
Proof.
  unfold accepted. destruct (check_func e) as [msg|[|]]; split; congruence.
Qed.

Lemma Forall_accepted check_func l :
  Forall (fun x => check_func x = inr true) (filter (accepted check_func) l).
Proof.
  apply Forall_forall. intros x Hx.
  apply filter_In in Hx. now apply accepted_true.
Qed.

Lemma filter_raising_Ok check_func l l' :
  filter_raising check_func l = Ok l' ->
  never_raises check_func l = true /\ l' = filter (accepted check_func) l.
Proof.
  revert l'. induction l as [|e l IH]; simpl; intros l' H.
  - now inversion H.
  - unfold accepted. destruct (check_func e) as [msg|b]; [discriminate|].
    destruct (filter_raising check_func l) as [l0|x]; [|discriminate].
    destruct (IH l0 eq_refl) as [Hn ->]. inversion H; subst. simpl.
    split; [assumption|]. now destruct b.
Qed.

(** ** Subsequences *)

Lemma Subsequence_filter {A} (p : A -> bool) (l : list A) :
  Subsequence (filter p l) l.
Proof.
  induction l as [|x l IH]; simpl; [constructor|].
  destruct (p x); now constructor.
Qed.

Lemma Subsequence_map {A B} (f : A -> B) (l1 l2 : list A) :
  Subsequence l1 l2 -> Subsequence (map f l1) (map f l2).
Proof. induction 1; simpl; now constructor. Qed.

Lemma Subsequence_trans {A} (l1 l2 l3 : list A) :
  Subsequence l1 l2 -> Subsequence l2 l3 -> Subsequence l1 l3.
Proof.
  intros H12 H23. revert l1 H12.
  induction H23 as [|x l2 l3 H23 IH|x l2 l3 H23 IH]; intros l1 H12.
  - assumption.
  - constructor. now apply IH.
  - inversion H12; subst.
    + apply Subsequence_skip. now apply IH.
    + apply Subsequence_keep. now apply IH.
Qed.

(** ** The overriding [_load_one_plugin], over any base class *)

Section Override.
Context {B : Base}.
Variables (self : Manager.t) (ep : EntryPoint.t).
Variables (invoke_on_load : bool) (invoke_args : pyargs) (invoke_kwds : pykwds).

(** The base loader raised: so does the override, with nothing added. *)
Lemma load_one_super_raises t x :
  super_load_one_plugin self ep invoke_on_load invoke_args invoke_kwds
  = (t, Raise x) ->
  EnabledExtensionManager._load_one_plugin self ep
    invoke_on_load invoke_args invoke_kwds
  = (t, Raise x).
Proof.
  unfold EnabledExtensionManager._load_one_plugin.
  now intros ->.
Qed.

(** The base loader skipped the entry. *)
Lemma load_one_super_skips t :
  super_load_one_plugin self ep invoke_on_load invoke_args invoke_kwds
  = (t, Ok None) ->
  EnabledExtensionManager._load_one_plugin self ep
    invoke_on_load invoke_args invoke_kwds
  = (t, Ok None).
Proof.
  unfold EnabledExtensionManager._load_one_plugin.
  intros ->. simpl. now rewrite app_nil_r.
Qed.

(** The base loader produced [e]: what the override does, by what the
    predicate answers. *)
Lemma load_one_super_loads t e check_func :
  super_load_one_plugin self ep invoke_on_load invoke_args invoke_kwds
  = (t, Ok (Some e)) ->
  Manager.check_func self = Some check_func ->
  EnabledExtensionManager._load_one_plugin self ep
    invoke_on_load invoke_args invoke_kwds
  = match check_func e with
    | inr true => (t ++ [CallCheck e], Ok (Some e))
    | inr false =>
        (t ++ [CallCheck e;
               Log DEBUG "ignoring extension %r" (EntryPoint.name ep)],
         Ok None)
    | inl msg => (t ++ [CallCheck e], Raise (CheckError msg))
    end.
Proof.
  unfold EnabledExtensionManager._load_one_plugin.
  intros -> ->. unfold call_check. cbn.
  destruct (check_func e) as [msg|[|]]; reflexivity.
Qed.

(** The base loader produced [e] but the instance has no [check_func]. *)
Lemma load_one_unset t e :
  super_load_one_plugin self ep invoke_on_load invoke_args invoke_kwds
  = (t, Ok (Some e)) ->
  Manager.check_func self = None ->
  EnabledExtensionManager._load_one_plugin self ep
    invoke_on_load invoke_args invoke_kwds
  = (t, Raise (AttributeError "check_func")).
Proof.
  unfold EnabledExtensionManager._load_one_plugin.
  intros -> ->. simpl. now rewrite app_nil_r.
Qed.

End Override.

(** ** The list comprehension of [make_test_instance] *)

Lemma comprehension_result check_func l :
  result (EnabledExtensionManager.comprehension check_func l)
  = filter_raising check_func l.
Proof.
  induction l as [|e l IH]; simpl; [reflexivity|].
  unfold call_check. cbn.
  destruct (check_func e) as [msg|b]; cbn; [reflexivity|].
  rewrite <- IH.
  destruct (EnabledExtensionManager.comprehension check_func l) as [t [l'|x]];
    reflexivity.
Qed.

Lemma comprehension_total check_func l :
  never_raises check_func l = true ->
  EnabledExtensionManager.comprehension check_func l
  = (map CallCheck l, Ok (filter (accepted check_func) l)).
Proof.
  induction l as [|e l IH]; simpl; [reflexivity|].
  intros H. apply andb_prop in H as [He Hl]. rewrite (IH Hl).
  unfold call_check, accepted. cbn.
  destruct (check_func e) as [msg|[|]]; cbn;
    [discriminate He| |]; now rewrite app_nil_r.
Qed.


(** The comprehension emits calls of the predicate and nothing else. *)
Lemma comprehension_no_record lvl check_func l :
  records lvl (trace (EnabledExtensionManager.comprehension check_func l)) = [].
Proof.
  induction l as [|e l IH]; simpl; [reflexivity|].
  unfold call_check. cbn.
  destruct (check_func e) as [msg|b]; cbn; [reflexivity|].
  destruct (EnabledExtensionManager.comprehension check_func l) as [t [l'|x]];
    cbn in *; unfold records in *; rewrite ?filter_app, IH; reflexivity.
Qed.

(** ** The base per-entry loader *)

Section BaseLoader.
Variables (self : Manager.t) (ep : EntryPoint.t).
Variables (invoke_on_load : bool) (invoke_args : pyargs) (invoke_kwds : pykwds).

(** It does not look at the instance. *)
Lemma base_load_one_self :
  ExtensionManager._load_one_plugin self ep invoke_on_load invoke_args invoke_kwds
  = ExtensionManager._load_one_plugin Manager.new ep
      invoke_on_load invoke_args invoke_kwds.
Proof. reflexivity. Qed.

(** It emits nothing. *)
Lemma base_load_one_silent :
  trace (ExtensionManager._load_one_plugin self ep
           invoke_on_load invoke_args invoke_kwds) = [].
Proof.
  unfold ExtensionManager._load_one_plugin.
  destruct (EntryPoint.resolve ep) as [msg|p]; [reflexivity|].
  destruct invoke_on_load; [|reflexivity]. cbn.
  destruct (Plugin.call p invoke_args invoke_kwds); reflexivity.
Qed.

(** It yields an Extension named after the entry, or a load failure. *)
Lemma base_load_one_cases :
  (exists e, result (ExtensionManager._load_one_plugin self ep
                       invoke_on_load invoke_args invoke_kwds) = Ok (Some e)
             /\ Extension.name e = EntryPoint.name ep)
  \/ (exists msg, result (ExtensionManager._load_one_plugin self ep
                            invoke_on_load invoke_args invoke_kwds)
                  = Raise (LoadError msg)).
Proof.
  unfold ExtensionManager._load_one_plugin.
  destruct (EntryPoint.resolve ep) as [msg|p]; [right; now exists msg|].
  destruct invoke_on_load; [|left; eexists; split; reflexivity]. cbn.
  destruct (Plugin.call p invoke_args invoke_kwds) as [msg|o];
    [right; now exists msg|left; eexists; split; reflexivity].
Qed.

End BaseLoader.

(** ** Real-discovery mode: the loading loop with the override *)

Section RealMode.
Context {D : Discovery}.
Variables (self : Manager.t) (check_func : CheckFunc).
Variables (invoke_on_load : bool) (invoke_args : pyargs) (invoke_kwds : pykwds).
Hypothesis Hself : Manager.check_func self = Some check_func.

(** One turn of the loop, with its try and except. *)
Lemma attempt_entry_step ep :
  catch (EnabledExtensionManager._load_one_plugin self ep
           invoke_on_load invoke_args invoke_kwds)
        ExtensionManager.is_load_failure
        (fun _ => LOG_error "could not load %r" (EntryPoint.name ep) ;;;
                  ret None)
  = entry_step check_func invoke_on_load invoke_args invoke_kwds ep.
Proof.
  unfold entry_step.
  pose proof (surjective_M (ExtensionManager._load_one_plugin self ep
                              invoke_on_load invoke_args invoke_kwds)) as E.
  rewrite base_load_one_silent in E.
  rewrite <- (base_load_one_self self).
  destruct (result (ExtensionManager._load_one_plugin self ep
                      invoke_on_load invoke_args invoke_kwds)) as [[e|]|x].
  - rewrite (load_one_super_loads (B := ExtensionManager_Base) _ _ _ _ _ E Hself).
    destruct (check_func e) as [msg|[|]]; reflexivity.
  - now rewrite (load_one_super_skips (B := ExtensionManager_Base) _ _ _ _ _ E).
  - now rewrite (load_one_super_raises (B := ExtensionManager_Base) _ _ _ _ _ E).
Qed.

(** The whole loop: it raises nothing, and keeps the candidates that the
    predicate accepts. *)
Lemma load_plugins_total eps :
  ExtensionManager._load_plugins EnabledExtensionManager._load_one_plugin
    self eps invoke_on_load invoke_args invoke_kwds
  = (flat_map (fun ep => trace (entry_step check_func
                                  invoke_on_load invoke_args invoke_kwds ep)) eps,
     Ok (filter (accepted check_func)
           (loaded invoke_on_load invoke_args invoke_kwds eps))).
Proof.
  induction eps as [|ep eps IH]; [reflexivity|].
  cbn [ExtensionManager._load_plugins]. rewrite attempt_entry_step, IH.
  unfold loaded. cbn [flat_map]. unfold entry_step.
  destruct (base_load_one_cases Manager.new ep
              invoke_on_load invoke_args invoke_kwds) as [[e [-> _]]|[msg ->]].
  - cbn [app filter]. unfold accepted.
    destruct (check_func e) as [msg|[|]];
      cbn [bind trace fst result snd ret app]; now rewrite ?app_nil_r.
  - cbn [bind trace fst result snd ret app]. now rewrite ?app_nil_r.
Qed.

End RealMode.

(** The loop hands every entry to the method together with the very
    instance it was given. *)
Lemma load_plugins_ext (m1 m2 : LoadOne) self eps
    invoke_on_load invoke_args invoke_kwds :
  (forall ep, m1 self ep invoke_on_load invoke_args invoke_kwds
              = m2 self ep invoke_on_load invoke_args invoke_kwds) ->
  ExtensionManager._load_plugins m1 self eps invoke_on_load invoke_args invoke_kwds
  = ExtensionManager._load_plugins m2 self eps invoke_on_load invoke_args invoke_kwds.
Proof.
  intros H. induction eps as [|ep eps IH]; [reflexivity|].
  cbn [ExtensionManager._load_plugins]. now rewrite H, IH.
Qed.

(** ** The two constructors over the specified base class *)

Section Constructors.
Context {D : Discovery}.
Variables (namespace : string) (check_func : CheckFunc).
Variables (invoke_on_load : bool) (invoke_args : pyargs) (invoke_kwds : pykwds).
Variable propagate_map_exceptions : bool.

(** The constructor when discovery fails. *)
Lemma real_init_no_discovery msg :
  list_entries namespace = inl msg ->
  EnabledExtensionManager.__init__ Manager.new namespace check_func
    invoke_on_load invoke_args invoke_kwds propagate_map_exceptions
  = ([], Raise (DiscoveryError msg)).
Proof.
  intros H. unfold EnabledExtensionManager.__init__. cbn [super_init ExtensionManager_Base].
  unfold ExtensionManager.__init__. now rewrite H.
Qed.

(** The constructor when discovery yields [eps]: the loading loop runs
    on the instance that already holds [check_func]. *)
Lemma real_init_discovered eps :
  list_entries namespace = inr eps ->
  EnabledExtensionManager.__init__ Manager.new namespace check_func
    invoke_on_load invoke_args invoke_kwds propagate_map_exceptions
  = (let self := Manager.mk (Some check_func) (Some namespace)
                   (Some propagate_map_exceptions) None in
     extensions <- ExtensionManager._load_plugins
                     EnabledExtensionManager._load_one_plugin self eps
                     invoke_on_load invoke_args invoke_kwds ;;
     ret (Manager.set_extensions self extensions)).
Proof.
  intros H. unfold EnabledExtensionManager.__init__. cbn [super_init ExtensionManager_Base].
  unfold ExtensionManager.__init__. rewrite H. cbn [lift].
  now rewrite bind_ret_l.
Qed.

Lemma real_init_total eps :
  list_entries namespace = inr eps ->
  EnabledExtensionManager.__init__ Manager.new namespace check_func
    invoke_on_load invoke_args invoke_kwds propagate_map_exceptions
  = (flat_map (fun ep => trace (entry_step check_func
                                  invoke_on_load invoke_args invoke_kwds ep)) eps,
     Ok (Manager.mk (Some check_func) (Some namespace)
           (Some propagate_map_exceptions)
           (Some (filter (accepted check_func)
                    (loaded invoke_on_load invoke_args invoke_kwds eps))))).
Proof.
  intros H. rewrite (real_init_discovered H). cbv zeta.
  erewrite load_plugins_total by reflexivity.
  cbn. now rewrite app_nil_r.
Qed.

(** What a manager returned by the real-mode constructor looks like. *)
Lemma real_init_Ok m :
  result (EnabledExtensionManager.__init__ Manager.new namespace check_func
            invoke_on_load invoke_args invoke_kwds propagate_map_exceptions)
  = Ok m ->
  exists eps,
    list_entries namespace = inr eps
    /\ m = Manager.mk (Some check_func) (Some namespace)
             (Some propagate_map_exceptions)
             (Some (filter (accepted check_func)
                      (loaded invoke_on_load invoke_args invoke_kwds eps))).
Proof.
  destruct (list_entries namespace) as [msg|eps] eqn:E.
  - rewrite (real_init_no_discovery E). discriminate.
  - rewrite (real_init_total E). intros H. exists eps.
    inversion H. auto.
Qed.

(** The test-instance constructor, whatever the predicate does. *)
Lemma test_instance_result available_extensions :
  result (EnabledExtensionManager.make_test_instance available_extensions
            check_func propagate_map_exceptions)
  = match filter_raising check_func available_extensions with
    | Ok l => Ok (Manager.mk (Some check_func) None
                    (Some propagate_map_exceptions) (Some l))
    | Raise x => Raise x
    end.
Proof.
  unfold EnabledExtensionManager.make_test_instance.
  rewrite <- comprehension_result.
  destruct (EnabledExtensionManager.comprehension check_func
              available_extensions) as [t [l|x]]; reflexivity.
Qed.

Lemma test_instance_total available_extensions :
  never_raises check_func available_extensions = true ->
  EnabledExtensionManager.make_test_instance available_extensions
    check_func propagate_map_exceptions
  = (map CallCheck available_extensions,
     Ok (Manager.mk (Some check_func) None (Some propagate_map_exceptions)
           (Some (filter (accepted check_func) available_extensions)))).
Proof.
  intros Hn. unfold EnabledExtensionManager.make_test_instance.
  rewrite (comprehension_total _ _ Hn). cbn. now rewrite !app_nil_r.
Qed.

Lemma test_instance_Ok available_extensions m :
  result (EnabledExtensionManager.make_test_instance available_extensions
            check_func propagate_map_exceptions)
  = Ok m ->
  never_raises check_func available_extensions = true
  /\ m = Manager.mk (Some check_func) None (Some propagate_map_exceptions)
           (Some (filter (accepted check_func) available_extensions)).
Proof.
  rewrite test_instance_result. intros H.
  destruct (filter_raising check_func _) as [l|x] eqn:F; [|discriminate].
  apply filter_raising_Ok in F as [Hn ->]. inversion H. auto.
Qed.

End Constructors.

(** A manager built by either constructor: its attributes. *)
Lemma built_attributes {D : Discovery} check_func propagate_map_exceptions m :
  built check_func propagate_map_exceptions m ->
  exists candidates,
    Manager.check_func m = Some check_func
    /\ Manager.propagate_map_exceptions m = Some propagate_map_exceptions
    /\ Manager.extensions m = Some (filter (accepted check_func) candidates).
Proof.
  intros [ns iol args kwds H|avail H].
  - apply real_init_Ok in H as (eps & _ & ->).
    exists (loaded iol args kwds eps). auto.
  - apply test_instance_Ok in H as (_ & ->).
    exists avail. auto.
Qed.

(** ** Names and log records of the loading loop *)

Lemma loaded_names invoke_on_load invoke_args invoke_kwds eps :
  Subsequence
    (map Extension.name (loaded invoke_on_load invoke_args invoke_kwds eps))
    (map EntryPoint.name eps).
Proof.
  induction eps as [|ep eps IH]; [constructor|].
  unfold loaded in *. cbn [flat_map map].
  destruct (base_load_one_cases Manager.new ep
              invoke_on_load invoke_args invoke_kwds) as [[e [-> Hname]]|[msg ->]].
  - cbn [app map]. rewrite Hname. now apply Subsequence_keep.
  - cbn [app]. now apply Subsequence_skip.
Qed.

Lemma records_app lvl t1 t2 :
  records lvl (t1 ++ t2) = records lvl t1 ++ records lvl t2.
Proof. apply filter_app. Qed.

(** The debug records of the loop: one per rejected candidate. *)
Lemma entry_steps_debug check_func invoke_on_load invoke_args invoke_kwds eps :
  one_debug_record_per_rejection check_func
    (loaded invoke_on_load invoke_args invoke_kwds eps)
    (flat_map (fun ep => trace (entry_step check_func
                                  invoke_on_load invoke_args invoke_kwds ep)) eps).
Proof.
  unfold one_debug_record_per_rejection.
  induction eps as [|ep eps IH]; [reflexivity|].
  unfold loaded in *. cbn [flat_map]. rewrite records_app, IH.
  unfold entry_step.
  destruct (base_load_one_cases Manager.new ep
              invoke_on_load invoke_args invoke_kwds) as [[e [-> Hname]]|[msg ->]].
  - cbn [app filter]. unfold rejected at 2.
    destruct (check_func e) as [m|[|]]; cbn; try reflexivity.
    now rewrite Hname.
  - reflexivity.
Qed.

(** The error records of the loop, when the predicate raises on no
    candidate: one per entry that failed to load. *)
Lemma entry_steps_error check_func invoke_on_load invoke_args invoke_kwds eps :
  never_raises check_func (loaded invoke_on_load invoke_args invoke_kwds eps)
  = true ->
  records ERROR
    (flat_map (fun ep => trace (entry_step check_func
                                  invoke_on_load invoke_args invoke_kwds ep)) eps)
  = map (fun ep => Log ERROR "could not load %r" (EntryPoint.name ep))
      (filter (load_failed invoke_on_load invoke_args invoke_kwds) eps).
Proof.
  induction eps as [|ep eps IH]; [reflexivity|].
  unfold loaded in *. cbn [flat_map filter]. rewrite records_app.
  unfold entry_step at 1. unfold load_failed at 1.
  destruct (base_load_one_cases Manager.new ep
              invoke_on_load invoke_args invoke_kwds) as [[e [-> Hname]]|[msg ->]].
  - cbn [app never_raises forallb]. intros H.
    apply andb_prop in H as [He Hl]. rewrite (IH Hl).
    destruct (check_func e) as [m|[|]]; [discriminate He| |]; reflexivity.
  - cbn [app]. intros Hl. now rewrite (IH Hl).
Qed.


(** * Properties of EnabledExtensionManager *)

(** C1 (filter invariant).  For an EnabledExtensionManager built with
    the predicate [check_func], by the real-discovery constructor or by
    the test-instance constructor, the managed sequence exists and every
    Extension in it satisfies [check_func]: the predicate returns true
    on it, so no Extension on which it returns false is in the
    sequence. *)
Theorem filter_invariant {D : Discovery} check_func propagate_map_exceptions m :
  built check_func propagate_map_exceptions m ->
  exists extensions,
    Manager.extensions m = Some extensions
    /\ Forall (fun x => check_func x = inr true) extensions.
Proof.
  intros H. apply built_attributes in H as (cands & _ & _ & ->).
  eexists. split; [reflexivity|]. apply Forall_accepted.
Qed.

Lemma filter_invariant_witness :
  (exists extensions,
     Manager.extensions
       (Manager.mk (Some Sample.not_b) (Some "sample") (Some false)
          (Some [Sample.alpha; Sample.gamma]))
     = Some extensions
     /\ Forall (fun x => Sample.not_b x = inr true) extensions)
  /\ (exists extensions,
        Manager.extensions
          (Manager.mk (Some Sample.not_b) None (Some true)
             (Some [Sample.alpha; Sample.gamma]))
        = Some extensions
        /\ Forall (fun x => Sample.not_b x = inr true) extensions).
Proof.
  split.
  - apply (filter_invariant (D := Sample.registry)
             (check_func := Sample.not_b) (propagate_map_exceptions := false)).
    apply built_real with (namespace := "sample") (invoke_on_load := false)
                          (invoke_args := []) (invoke_kwds := []).
    reflexivity.
  - apply (filter_invariant (D := Sample.registry)
             (check_func := Sample.not_b) (propagate_map_exceptions := true)).
    apply built_test
      with (available_extensions := [Sample.alpha; Sample.beta; Sample.gamma]).
    reflexivity.
Defined.

(** C2.  In real-discovery mode, when the base loading step produces an
    Extension [e] for an entry, [_load_one_plugin] applies [check_func]
    to [e], once.  If the predicate returns false, the method logs the
    rejection and returns None, the value it returns for an entry that
    loading skipped, so that nothing is added for the entry; if it
    returns true, the method returns the very same Extension.  This
    holds over any base class. *)
Theorem load_one_plugin_applies_check_func {B : Base} self ep
    invoke_on_load invoke_args invoke_kwds t e check_func :
  super_load_one_plugin self ep invoke_on_load invoke_args invoke_kwds
  = (t, Ok (Some e)) ->
  Manager.check_func self = Some check_func ->
  (check_func e = inr false ->
   EnabledExtensionManager._load_one_plugin self ep
     invoke_on_load invoke_args invoke_kwds
   = (t ++ [CallCheck e;
            Log DEBUG "ignoring extension %r" (EntryPoint.name ep)],
      Ok None))
  /\ (check_func e = inr true ->
      EnabledExtensionManager._load_one_plugin self ep
        invoke_on_load invoke_args invoke_kwds
      = (t ++ [CallCheck e], Ok (Some e))).
Proof.
  intros Hsuper Hself.
  rewrite (load_one_super_loads _ _ _ _ _ Hsuper Hself).
  split; intros ->; reflexivity.
Qed.

Lemma load_one_plugin_applies_check_func_witness :
  EnabledExtensionManager._load_one_plugin
    (B := ExtensionManager_Base (D := Sample.registry))
    (Manager.set_check_func Manager.new Sample.not_b) Sample.ep_beta false [] []
  = ([CallCheck Sample.beta; Log DEBUG "ignoring extension %r" "beta"], Ok None)
  /\ EnabledExtensionManager._load_one_plugin
       (B := ExtensionManager_Base (D := Sample.registry))
       (Manager.set_check_func Manager.new Sample.not_b) Sample.ep_alpha false [] []
     = ([CallCheck Sample.alpha], Ok (Some Sample.alpha)).
Proof.
  split.
  - apply (proj1 (load_one_plugin_applies_check_func
                    (B := ExtensionManager_Base (D := Sample.registry))
                    (Manager.set_check_func Manager.new Sample.not_b)
                    Sample.ep_beta false [] []
                    (t := []) (e := Sample.beta) (check_func := Sample.not_b)
                    eq_refl eq_refl)).
    reflexivity.
  - apply (proj2 (load_one_plugin_applies_check_func
                    (B := ExtensionManager_Base (D := Sample.registry))
                    (Manager.set_check_func Manager.new Sample.not_b)
                    Sample.ep_alpha false [] []
                    (t := []) (e := Sample.alpha) (check_func := Sample.not_b)
                    eq_refl eq_refl)).
    reflexivity.
Defined.

(** C3.  [make_test_instance] filters the caller's list with
    [check_func] before it delegates: after the calls of the predicate,
    one per supplied Extension and in order, the base test-instance
    constructor receives the accepted Extensions only, together with
    [propagate_map_exceptions] as given, and [check_func] is recorded as
    an attribute on the manager the base returned.  This holds over any
    base class, for a predicate that raises on none of the supplied
    Extensions. *)
Theorem make_test_instance_filters_then_delegates {B : Base}
    available_extensions check_func propagate_map_exceptions :
  never_raises check_func available_extensions = true ->
  Forall (fun x => check_func x = inr true)
    (filter (accepted check_func) available_extensions)
  /\ EnabledExtensionManager.make_test_instance available_extensions
       check_func propagate_map_exceptions
     = ((map CallCheck available_extensions, Ok tt) ;;;
        o <- super_make_test_instance
               (filter (accepted check_func) available_extensions)
               propagate_map_exceptions ;;
        ret (Manager.set_check_func o check_func))
  /\ match result (EnabledExtensionManager.make_test_instance
                     available_extensions check_func propagate_map_exceptions)
     with
     | Ok o => Manager.check_func o = Some check_func
     | Raise _ => True
     end.
Proof.
  intros Hn. split; [apply Forall_accepted|].
  unfold EnabledExtensionManager.make_test_instance.
  rewrite (comprehension_total _ _ Hn). split; [reflexivity|].
  cbn. destruct (super_make_test_instance _ _) as [t [o|x]]; cbn; auto.
Qed.

Lemma make_test_instance_filters_then_delegates_witness :
  EnabledExtensionManager.make_test_instance
    (B := ExtensionManager_Base (D := Sample.registry))
    [Sample.alpha; Sample.beta; Sample.gamma] Sample.not_b true
  = ((map CallCheck [Sample.alpha; Sample.beta; Sample.gamma], Ok tt) ;;;
     o <- ExtensionManager.make_test_instance [Sample.alpha; Sample.gamma] true ;;
     ret (Manager.set_check_func o Sample.not_b)).
Proof.
  apply (proj1 (proj2 (make_test_instance_filters_then_delegates
                         (B := ExtensionManager_Base (D := Sample.registry))
                         [Sample.alpha; Sample.beta; Sample.gamma]
                         Sample.not_b true eq_refl))).
Defined.

(** C9.  In [_load_one_plugin], when the base per-entry loader yields no
    Extension (None, a false value), the override is the base call and
    nothing more: the same events, so [check_func] is not invoked for
    the entry, and the same value returned.  Every call of the predicate
    that the override adds to those of the base loader is on the true
    value, the Extension, that the base loader produced.  This holds
    over any base class, with or without [check_func] on the
    instance. *)
Theorem check_func_not_called_on_skip {B : Base} self ep
    invoke_on_load invoke_args invoke_kwds t ext :
  super_load_one_plugin self ep invoke_on_load invoke_args invoke_kwds
  = (t, Ok ext) ->
  (truthy ext = false ->
   EnabledExtensionManager._load_one_plugin self ep
     invoke_on_load invoke_args invoke_kwds
   = (t, Ok ext))
  /\ (forall e,
        In (CallCheck e)
           (trace (EnabledExtensionManager._load_one_plugin self ep
                     invoke_on_load invoke_args invoke_kwds)) ->
        In (CallCheck e) t \/ (ext = Some e /\ truthy ext = true)).
Proof.
  intros Hsuper. split.
  - destruct ext as [e|]; [discriminate|]. intros _.
    now apply load_one_super_skips.
  - intros e' Hin. destruct ext as [e|].
    + destruct (Manager.check_func self) as [cf|] eqn:Hself.
      * rewrite (load_one_super_loads _ _ _ _ _ Hsuper Hself) in Hin.
        assert (In (CallCheck e') (t ++ [CallCheck e])) as H.
        { destruct (cf e) as [msg|[|]]; cbn [trace fst] in Hin; auto.
          apply in_app_or in Hin as [H|[H|[H|[]]]]; apply in_or_app;
            [now left|right; now left|discriminate H]. }
        apply in_app_or in H as [H|[H|[]]]; [now left|].
        inversion H. now right.
      * rewrite (load_one_unset _ _ _ _ _ Hsuper Hself) in Hin. now left.
    + rewrite (load_one_super_skips _ _ _ _ _ Hsuper) in Hin. now left.
Qed.

Lemma check_func_not_called_on_skip_witness :
  EnabledExtensionManager._load_one_plugin (B := Sample.skipping)
    (Manager.set_check_func Manager.new Sample.not_b) Sample.ep_beta false [] []
  = ([], Ok None).
Proof.
  apply (proj1 (check_func_not_called_on_skip (B := Sample.skipping)
                  (Manager.set_check_func Manager.new Sample.not_b)
                  Sample.ep_beta false [] [] (t := []) (ext := None) eq_refl)).
  reflexivity.
Defined.

(** C4 (order preservation).  The managed sequence of an
    EnabledExtensionManager is exactly the candidates that [check_func]
    accepts, in the order of the candidates.  In real mode the
    candidates are the Extensions loaded from the discovered entries:
    rejected entries and entries that failed to load are left out, and
    the names of the survivors follow the order of the discovered
    names.  In test-instance mode the candidates are the supplied
    Extensions. *)
Theorem managed_sequence_is_accepted_subsequence {D : Discovery}
    namespace eps check_func invoke_on_load invoke_args invoke_kwds
    propagate_map_exceptions available_extensions :
  list_entries namespace = inr eps ->
  never_raises check_func (loaded invoke_on_load invoke_args invoke_kwds eps)
  = true ->
  never_raises check_func available_extensions = true ->
  let candidates := loaded invoke_on_load invoke_args invoke_kwds eps in
  (managed (result (EnabledExtensionManager.__init__ Manager.new namespace
                      check_func invoke_on_load invoke_args invoke_kwds
                      propagate_map_exceptions))
   = Ok (Some (filter (accepted check_func) candidates))
   /\ Subsequence (filter (accepted check_func) candidates) candidates
   /\ Subsequence (map Extension.name (filter (accepted check_func) candidates))
        (map EntryPoint.name eps))
  /\ (managed (result (EnabledExtensionManager.make_test_instance
                         available_extensions check_func
                         propagate_map_exceptions))
      = Ok (Some (filter (accepted check_func) available_extensions))
      /\ Subsequence (filter (accepted check_func) available_extensions)
           available_extensions).
Proof.
  intros He Hn Hn' candidates. repeat split.
  - now rewrite (real_init_total _ _ _ _ _ _ He).
  - apply Subsequence_filter.
  - eapply Subsequence_trans; [|apply loaded_names].
    apply Subsequence_map, Subsequence_filter.
  - now rewrite (test_instance_total _ _ _ Hn').
  - apply Subsequence_filter.
Qed.

Lemma managed_sequence_is_accepted_subsequence_witness :
  managed (result (EnabledExtensionManager.__init__
                     (B := ExtensionManager_Base (D := Sample.registry))
                     Manager.new "sample" Sample.not_b false [] [] false))
  = Ok (Some [Sample.alpha; Sample.gamma])
  /\ managed (result (EnabledExtensionManager.make_test_instance
                        (B := ExtensionManager_Base (D := Sample.registry))
                        [Sample.gamma; Sample.beta; Sample.alpha]
                        Sample.not_b false))
     = Ok (Some [Sample.gamma; Sample.alpha]).
Proof.
  pose proof (managed_sequence_is_accepted_subsequence (D := Sample.registry)
                "sample" (eps := [Sample.ep_alpha; Sample.ep_delta;
                                  Sample.ep_beta; Sample.ep_gamma])
                Sample.not_b false [] [] false
                [Sample.gamma; Sample.beta; Sample.alpha]
                eq_refl eq_refl eq_refl) as [[H _] [H' _]].
  split; [exact H|exact H'].
Defined.

(** C5 (test and real equivalence).  Given the candidates of a
    discovery result, that is the Extensions loaded from its entries,
    and the same predicate, returning on each of them, the test-instance
    constructor and the real-discovery constructor both return a manager
    and the two managed sequences are identical: the same Extensions,
    hence the same names, in the same order. *)
Theorem test_instance_agrees_with_discovery {D : Discovery}
    namespace eps check_func invoke_on_load invoke_args invoke_kwds
    propagate_map_exceptions propagate_map_exceptions' :
  list_entries namespace = inr eps ->
  never_raises check_func (loaded invoke_on_load invoke_args invoke_kwds eps)
  = true ->
  managed (result (EnabledExtensionManager.__init__ Manager.new namespace
                     check_func invoke_on_load invoke_args invoke_kwds
                     propagate_map_exceptions))
  = managed (result (EnabledExtensionManager.make_test_instance
                       (loaded invoke_on_load invoke_args invoke_kwds eps)
                       check_func propagate_map_exceptions'))
  /\ managed (result (EnabledExtensionManager.make_test_instance
                        (loaded invoke_on_load invoke_args invoke_kwds eps)
                        check_func propagate_map_exceptions'))
     = Ok (Some (filter (accepted check_func)
                   (loaded invoke_on_load invoke_args invoke_kwds eps))).
Proof.
  intros He Hn.
  rewrite (real_init_total _ _ _ _ _ _ He), (test_instance_total _ _ _ Hn).
  split; reflexivity.
Qed.

Lemma test_instance_agrees_with_discovery_witness :
  managed (result (EnabledExtensionManager.__init__
                     (B := ExtensionManager_Base (D := Sample.registry))
                     Manager.new "sample" Sample.not_b false [] [] false))
  = managed (result (EnabledExtensionManager.make_test_instance
                       (B := ExtensionManager_Base (D := Sample.registry))
                       [Sample.alpha; Sample.beta; Sample.gamma]
                       Sample.not_b true)).
Proof.
  exact (proj1 (@test_instance_agrees_with_discovery Sample.registry
                  "sample"
                  [Sample.ep_alpha; Sample.ep_delta; Sample.ep_beta; Sample.ep_gamma]
                  Sample.not_b false [] [] false true eq_refl eq_refl)).
Defined.




(** C7, as stated, fails on the test-instance path: the predicate
    rejects "beta" and no debug record is emitted. *)
Lemma rejection_logging_counterexample :
  ~ one_debug_record_per_rejection Sample.not_b [Sample.beta]
      (trace (EnabledExtensionManager.make_test_instance
                (B := ExtensionManager_Base (D := Sample.registry))
                [Sample.beta] Sample.not_b false)).
Proof. unfold one_debug_record_per_rejection. cbn. discriminate. Qed.

(** C7, amended.  In real-discovery mode every candidate rejected by
    [check_func] produces exactly one debug-level log record, naming
    the rejected extension, and a rejection produces no other log
    record: the only other records are the error records of the entries
    that failed to load.  The test-instance constructor filters
    silently: it emits no log record at all. *)
Theorem rejection_logging {D : Discovery}
    namespace eps check_func invoke_on_load invoke_args invoke_kwds
    propagate_map_exceptions available_extensions propagate_map_exceptions' :
  list_entries namespace = inr eps ->
  never_raises check_func (loaded invoke_on_load invoke_args invoke_kwds eps)
  = true ->
  let real := trace (EnabledExtensionManager.__init__ Manager.new namespace
                       check_func invoke_on_load invoke_args invoke_kwds
                       propagate_map_exceptions) in
  let test := trace (EnabledExtensionManager.make_test_instance
                       available_extensions check_func
                       propagate_map_exceptions') in
  one_debug_record_per_rejection check_func
    (loaded invoke_on_load invoke_args invoke_kwds eps) real
  /\ records ERROR real
     = map (fun ep => Log ERROR "could not load %r" (EntryPoint.name ep))
         (filter (load_failed invoke_on_load invoke_args invoke_kwds) eps)
  /\ records DEBUG test = []
  /\ records ERROR test = [].
Proof.
  intros He Hn real test. subst real test.
  rewrite (real_init_total _ _ _ _ _ _ He). cbn [trace fst].
  split; [apply entry_steps_debug|]. split; [now apply entry_steps_error|].
  assert (forall lvl,
             records lvl (trace (EnabledExtensionManager.make_test_instance
                                   available_extensions check_func
                                   propagate_map_exceptions')) = []) as H.
  { intros lvl. unfold EnabledExtensionManager.make_test_instance.
    pose proof (comprehension_no_record lvl check_func available_extensions) as E.
    destruct (EnabledExtensionManager.comprehension check_func
                available_extensions) as [t [l|x]]; cbn in *;
      rewrite ?app_nil_r; exact E. }
  split; apply H.
Qed.

Lemma rejection_logging_witness :
  records DEBUG
    (trace (EnabledExtensionManager.__init__
              (B := ExtensionManager_Base (D := Sample.registry))
              Manager.new "sample" Sample.not_b false [] [] false))
  = [Log DEBUG "ignoring extension %r" "beta"]
  /\ records ERROR
       (trace (EnabledExtensionManager.__init__
                 (B := ExtensionManager_Base (D := Sample.registry))
                 Manager.new "sample" Sample.not_b false [] [] false))
     = [Log ERROR "could not load %r" "delta"].
Proof.
  pose proof (@rejection_logging Sample.registry
                "sample"
                [Sample.ep_alpha; Sample.ep_delta; Sample.ep_beta; Sample.ep_gamma]
                Sample.not_b false [] [] false
                [Sample.beta] false eq_refl eq_refl) as [H [H' _]].
  split; [exact H|exact H'].
Defined.



(** C10.  [__init__] assigns [self.check_func] before it calls the base
    constructor: the base constructor runs on the instance that already
    holds the caller's predicate, and each call of [_load_one_plugin]
    made by the loading loop of the specified base class is on such an
    instance.  So the construction is the same with any method that
    agrees with [_load_one_plugin] on the instances whose [check_func]
    is the caller's predicate, and it never fails for a missing
    [check_func]. *)
Theorem check_func_set_before_loading {D : Discovery}
    namespace check_func invoke_on_load invoke_args invoke_kwds
    propagate_map_exceptions (other : LoadOne) :
  (forall self ep,
     Manager.check_func self = Some check_func ->
     other self ep invoke_on_load invoke_args invoke_kwds
     = EnabledExtensionManager._load_one_plugin self ep
         invoke_on_load invoke_args invoke_kwds) ->
  EnabledExtensionManager.__init__ Manager.new namespace check_func
    invoke_on_load invoke_args invoke_kwds propagate_map_exceptions
  = ExtensionManager.__init__ other
      (Manager.set_check_func Manager.new check_func) namespace
      invoke_on_load invoke_args invoke_kwds propagate_map_exceptions
  /\ (forall attr,
        result (EnabledExtensionManager.__init__ Manager.new namespace
                  check_func invoke_on_load invoke_args invoke_kwds
                  propagate_map_exceptions)
        <> Raise (AttributeError attr)).
Proof.
  intros H. split.
  - unfold EnabledExtensionManager.__init__.
    cbn [super_init ExtensionManager_Base]. unfold ExtensionManager.__init__.
    destruct (list_entries namespace) as [msg|eps]; [reflexivity|].
    cbn [lift]. rewrite !bind_ret_l.
    rewrite (load_plugins_ext other EnabledExtensionManager._load_one_plugin);
      [reflexivity|].
    intros ep. now apply H.
  - intros attr.
    destruct (list_entries namespace) as [msg|eps] eqn:E.
    + rewrite (real_init_no_discovery _ _ _ _ _ _ E). discriminate.
    + rewrite (real_init_total _ _ _ _ _ _ E). discriminate.
Qed.

Lemma check_func_set_before_loading_witness :
  EnabledExtensionManager.__init__
    (B := ExtensionManager_Base (D := Sample.registry))
    Manager.new "sample" Sample.not_b false [] [] false
  = ExtensionManager.__init__ (D := Sample.registry)
      (Sample.load_one_with Sample.not_b)
      (Manager.set_check_func Manager.new Sample.not_b) "sample"
      false [] [] false.
Proof.
  apply (@check_func_set_before_loading Sample.registry
           "sample" Sample.not_b false [] [] false
           (Sample.load_one_with Sample.not_b)).
  intros [c n p x] ep H. cbn in H. subst c. reflexivity.
Defined.

(** * Further properties of enabled.py, over any base class *)

(** X1.  [_load_one_plugin] returns an Extension only if the base
    loader returned that very Extension, the instance holds a
    predicate, and the predicate returned true on it: the override
    never makes up or replaces an Extension, and never lets one through
    unchecked. *)
Theorem load_one_plugin_returns_only_accepted {B : Base} self ep
    invoke_on_load invoke_args invoke_kwds e :
  result (EnabledExtensionManager._load_one_plugin self ep
            invoke_on_load invoke_args invoke_kwds) = Ok (Some e) ->
  result (super_load_one_plugin self ep invoke_on_load invoke_args invoke_kwds)
  = Ok (Some e)
  /\ exists check_func,
       Manager.check_func self = Some check_func
       /\ check_func e = inr true.
Proof.
  pose proof (surjective_M (super_load_one_plugin self ep
                              invoke_on_load invoke_args invoke_kwds)) as E.
  destruct (result (super_load_one_plugin self ep
                      invoke_on_load invoke_args invoke_kwds)) as [[e0|]|x].
  - destruct (Manager.check_func self) as [cf|] eqn:Hself.
    + rewrite (load_one_super_loads _ _ _ _ _ E Hself).
      destruct (cf e0) as [msg|[|]] eqn:Hcf; cbn; intros H;
        try discriminate H.
      inversion H; subst. split; [reflexivity|]. now exists cf.
    + rewrite (load_one_unset _ _ _ _ _ E Hself). discriminate.
  - rewrite (load_one_super_skips _ _ _ _ _ E). discriminate.
  - rewrite (load_one_super_raises _ _ _ _ _ E). discriminate.
Qed.

Lemma load_one_plugin_returns_only_accepted_witness :
  result (ExtensionManager._load_one_plugin
            (Manager.set_check_func Manager.new Sample.not_b)
            Sample.ep_alpha false [] [])
  = Ok (Some Sample.alpha)
  /\ exists check_func,
       Manager.check_func (Manager.set_check_func Manager.new Sample.not_b)
       = Some check_func
       /\ check_func Sample.alpha = inr true.
Proof.
  exact (@load_one_plugin_returns_only_accepted
           (ExtensionManager_Base (D := Sample.registry))
           (Manager.set_check_func Manager.new Sample.not_b)
           Sample.ep_alpha false [] [] Sample.alpha eq_refl).
Defined.



(** X3.  On an instance that has no [check_func] attribute,
    [_load_one_plugin] reads the attribute only once the base loader has
    produced an Extension: it then raises AttributeError, after the
    events of the base loader and without logging; when the base loader
    skips the entry or raises, the override is the base call. *)
Theorem load_one_plugin_without_check_func {B : Base} self ep
    invoke_on_load invoke_args invoke_kwds :
  Manager.check_func self = None ->
  EnabledExtensionManager._load_one_plugin self ep
    invoke_on_load invoke_args invoke_kwds
  = match result (super_load_one_plugin self ep
                    invoke_on_load invoke_args invoke_kwds) with
    | Ok (Some _) =>
        (trace (super_load_one_plugin self ep
                  invoke_on_load invoke_args invoke_kwds),
         Raise (AttributeError "check_func"))
    | _ => super_load_one_plugin self ep invoke_on_load invoke_args invoke_kwds
    end.
Proof.
  intros Hself.
  pose proof (surjective_M (super_load_one_plugin self ep
                              invoke_on_load invoke_args invoke_kwds)) as E.
  destruct (result (super_load_one_plugin self ep
                      invoke_on_load invoke_args invoke_kwds)) as [[e0|]|x0].
  - now rewrite (load_one_unset _ _ _ _ _ E Hself).
  - now rewrite (load_one_super_skips _ _ _ _ _ E).
  - now rewrite (load_one_super_raises _ _ _ _ _ E).
Qed.

Lemma load_one_plugin_without_check_func_witness :
  EnabledExtensionManager._load_one_plugin (B := Sample.skipping)
    Manager.new Sample.ep_alpha false [] []
  = ([], Raise (AttributeError "check_func"))
  /\ EnabledExtensionManager._load_one_plugin (B := Sample.skipping)
       Manager.new Sample.ep_beta false [] []
     = ([], Ok None).
Proof.
  split.
  - exact (@load_one_plugin_without_check_func Sample.skipping
             Manager.new Sample.ep_alpha false [] [] eq_refl).
  - exact (@load_one_plugin_without_check_func Sample.skipping
             Manager.new Sample.ep_beta false [] [] eq_refl).
Defined.

(** X4.  The log output of [_load_one_plugin], in every case: it adds
    no error-level record to those of the base loader, and it adds one
    debug record, naming the entry, exactly when the base loader
    produced an Extension and the predicate of the instance returned
    false on it; when the predicate raises, or is missing, or accepts,
    nothing is logged. *)
Theorem load_one_plugin_log_records {B : Base} self ep
    invoke_on_load invoke_args invoke_kwds :
  records ERROR (trace (EnabledExtensionManager._load_one_plugin self ep
                          invoke_on_load invoke_args invoke_kwds))
  = records ERROR (trace (super_load_one_plugin self ep
                            invoke_on_load invoke_args invoke_kwds))
  /\ records DEBUG (trace (EnabledExtensionManager._load_one_plugin self ep
                             invoke_on_load invoke_args invoke_kwds))
     = records DEBUG (trace (super_load_one_plugin self ep
                               invoke_on_load invoke_args invoke_kwds))
       ++ match result (super_load_one_plugin self ep
                          invoke_on_load invoke_args invoke_kwds),
                Manager.check_func self with
          | Ok (Some e), Some check_func =>
              if rejected check_func e
              then [Log DEBUG "ignoring extension %r" (EntryPoint.name ep)]
              else []
          | _, _ => []
          end.
Proof.
  pose proof (surjective_M (super_load_one_plugin self ep
                              invoke_on_load invoke_args invoke_kwds)) as E.
  destruct (result (super_load_one_plugin self ep
                      invoke_on_load invoke_args invoke_kwds)) as [[e0|]|x0].
  - destruct (Manager.check_func self) as [cf|] eqn:Hself.
    + rewrite (load_one_super_loads _ _ _ _ _ E Hself). unfold rejected.
      destruct (cf e0) as [msg|[|]]; cbn [trace fst];
        rewrite !records_app; cbn; now rewrite ?app_nil_r.
    + rewrite (load_one_unset _ _ _ _ _ E Hself). cbn [trace fst].
      now rewrite app_nil_r.
  - rewrite (load_one_super_skips _ _ _ _ _ E). cbn [trace fst].
    now rewrite app_nil_r.
  - rewrite (load_one_super_raises _ _ _ _ _ E). cbn [trace fst].
    now rewrite app_nil_r.
Qed.

(** ** Filtering in [make_test_instance] *)

Lemma accepted_returns check_func l :
  never_raises check_func (filter (accepted check_func) l) = true.
Proof.
  unfold never_raises.
  induction l as [|e l IH]; [reflexivity|]. cbn [filter].
  destruct (accepted check_func e) eqn:Ha; [|assumption].
  cbn [forallb]. rewrite IH. apply accepted_true in Ha. now rewrite Ha.
Qed.

Lemma filter_accepted_idem check_func l :
  filter (accepted check_func) (filter (accepted check_func) l)
  = filter (accepted check_func) l.
Proof.
  induction l as [|e l IH]; [reflexivity|]. cbn [filter].
  destruct (accepted check_func e) eqn:Ha; [|assumption].
  cbn [filter]. now rewrite Ha, IH.
Qed.

Lemma filter_all_true {A} (p : A -> bool) l :
  forallb p l = true -> filter p l = l.
Proof.
  induction l as [|e l IH]; [reflexivity|]. cbn.
  intros H. apply andb_prop in H as [He Hl]. now rewrite He, IH.
Qed.

Lemma filter_raising_both p q l l1 :
  filter_raising p l = Ok l1 ->
  filter_raising q l1 = filter_raising (both p q) l.
Proof.
  revert l1. induction l as [|e l IH]; intros l1 H.
  - inversion H. reflexivity.
  - cbn in H. cbn [filter_raising]. unfold both at 1.
    destruct (p e) as [msg|b]; [discriminate|].
    destruct (filter_raising p l) as [l0|x]; [|discriminate].
    specialize (IH l0 eq_refl). inversion H; subst.
    destruct b.
    + cbn [filter_raising]. now rewrite IH.
    + rewrite <- IH. now destruct (filter_raising q l0).
Qed.

(** X5 (filtering twice).  The Extensions that [make_test_instance]
    keeps pass the predicate again: when the comprehension of lines
    75-76 yields the list [kept], a test instance made from [kept] with
    the same predicate calls it once on each element, raises nothing
    before the base constructor, and hands the base constructor [kept]
    unchanged. *)
Theorem make_test_instance_refilter {B : Base}
    available_extensions check_func propagate_map_exceptions kept :
  result (EnabledExtensionManager.comprehension check_func available_extensions)
  = Ok kept ->
  EnabledExtensionManager.make_test_instance kept
    check_func propagate_map_exceptions
  = ((map CallCheck kept, Ok tt) ;;;
     o <- super_make_test_instance kept propagate_map_exceptions ;;
     ret (Manager.set_check_func o check_func)).
Proof.
  rewrite comprehension_result. intros H.
  apply filter_raising_Ok in H as [_ ->].
  unfold EnabledExtensionManager.make_test_instance.
  rewrite (comprehension_total _ _ (accepted_returns check_func _)).
  now rewrite filter_accepted_idem.
Qed.

Lemma make_test_instance_refilter_witness :
  EnabledExtensionManager.make_test_instance
    (B := ExtensionManager_Base (D := Sample.registry))
    [Sample.alpha; Sample.gamma] Sample.not_b false
  = ((map CallCheck [Sample.alpha; Sample.gamma], Ok tt) ;;;
     o <- ExtensionManager.make_test_instance [Sample.alpha; Sample.gamma] false ;;
     ret (Manager.set_check_func o Sample.not_b)).
Proof.
  exact (@make_test_instance_refilter
           (ExtensionManager_Base (D := Sample.registry))
           [Sample.alpha; Sample.beta; Sample.gamma] Sample.not_b false
           [Sample.alpha; Sample.gamma] eq_refl).
Defined.

(** X6 (filtering in two passes).  Filtering the supplied list with
    [p], then the kept list with [q], ends as filtering once with
    [lambda e: p(e) and q(e)]: the same list is kept, or the same
    exception of [q] is raised. *)
Theorem comprehension_both p q available_extensions kept :
  result (EnabledExtensionManager.comprehension p available_extensions)
  = Ok kept ->
  result (EnabledExtensionManager.comprehension q kept)
  = result (EnabledExtensionManager.comprehension (both p q)
              available_extensions).
Proof.
  rewrite !comprehension_result. apply filter_raising_both.
Qed.

Lemma comprehension_both_witness :
  result (EnabledExtensionManager.comprehension Sample.fragile
            [Sample.alpha; Sample.gamma])
  = result (EnabledExtensionManager.comprehension
              (both Sample.not_b Sample.fragile)
              [Sample.alpha; Sample.beta; Sample.gamma]).
Proof.
  exact (@comprehension_both Sample.not_b Sample.fragile
           [Sample.alpha; Sample.beta; Sample.gamma]
           [Sample.alpha; Sample.gamma] eq_refl).
Defined.

(** X7 (a predicate that accepts all, or none).  When [check_func]
    returns true on every supplied Extension, [make_test_instance] hands
    the supplied list to the base constructor as it is; when it returns
    false on every one, the base constructor receives the empty list.
    In both cases the predicate is still called once on each supplied
    Extension. *)
Theorem make_test_instance_all_or_none {B : Base}
    available_extensions check_func propagate_map_exceptions :
  (forallb (accepted check_func) available_extensions = true ->
   EnabledExtensionManager.make_test_instance available_extensions
     check_func propagate_map_exceptions
   = ((map CallCheck available_extensions, Ok tt) ;;;
      o <- super_make_test_instance available_extensions
             propagate_map_exceptions ;;
      ret (Manager.set_check_func o check_func)))
  /\ (forallb (rejected check_func) available_extensions = true ->
      EnabledExtensionManager.make_test_instance available_extensions
        check_func propagate_map_exceptions
      = ((map CallCheck available_extensions, Ok tt) ;;;
         o <- super_make_test_instance [] propagate_map_exceptions ;;
         ret (Manager.set_check_func o check_func))).
Proof.
  assert (forall p : Extension.t -> bool,
             (forall e, p e = true -> returns (check_func e) = true) ->
             forallb p available_extensions = true ->
             never_raises check_func available_extensions = true) as Hn.
  { intros p Hp. unfold never_raises.
    induction available_extensions as [|e l IH]; [reflexivity|]. cbn.
    intros H. apply andb_prop in H as [He Hl].
    now rewrite (Hp e He), (IH Hl). }
  split; intros H; unfold EnabledExtensionManager.make_test_instance.
  - rewrite comprehension_total.
    + now rewrite (filter_all_true _ _ H).
    + apply (Hn (accepted check_func)); [|assumption].
      intros e. unfold accepted. now destruct (check_func e) as [msg|[|]].
  - rewrite comprehension_total.
    + replace (filter (accepted check_func) available_extensions)
        with (@nil Extension.t); [reflexivity|].
      clear Hn. induction available_extensions as [|e l IH]; [reflexivity|].
      cbn in H. apply andb_prop in H as [He Hl]. cbn [filter].
      unfold rejected in He. unfold accepted at 1.
      destruct (check_func e) as [msg|[|]]; try discriminate He.
      now apply IH.
    + apply (Hn (rejected check_func)); [|assumption].
      intros e. unfold rejected. now destruct (check_func e) as [msg|[|]].
Qed.

Lemma make_test_instance_all_or_none_witness :
  EnabledExtensionManager.make_test_instance
    (B := ExtensionManager_Base (D := Sample.registry))
    [Sample.gamma; Sample.alpha] Sample.not_b true
  = ((map CallCheck [Sample.gamma; Sample.alpha], Ok tt) ;;;
     o <- ExtensionManager.make_test_instance [Sample.gamma; Sample.alpha] true ;;
     ret (Manager.set_check_func o Sample.not_b))
  /\ EnabledExtensionManager.make_test_instance
       (B := ExtensionManager_Base (D := Sample.registry))
       [Sample.beta; Sample.beta] Sample.not_b true
     = ((map CallCheck [Sample.beta; Sample.beta], Ok tt) ;;;
        o <- ExtensionManager.make_test_instance [] true ;;
        ret (Manager.set_check_func o Sample.not_b)).
Proof.
  split.
  - exact (proj1 (@make_test_instance_all_or_none
                    (ExtensionManager_Base (D := Sample.registry))
                    [Sample.gamma; Sample.alpha] Sample.not_b true) eq_refl).
  - exact (proj2 (@make_test_instance_all_or_none
                    (ExtensionManager_Base (D := Sample.registry))
                    [Sample.beta; Sample.beta] Sample.not_b true) eq_refl).
Defined.
